(** * A model of [src/main.py] (circle drawing tool, shapefile hand-off,
    PDF card export) over the real numbers.

    Coordinates, radii and angles are modelled as [R]: the program computes
    them in IEEE doubles with [math.cos], [math.sin] and [math.sqrt]; the
    real-number model is the exact-arithmetic reading of the same formulas. *)

From Stdlib Require Import Reals Lra Lia List String Bool Arith ZArith.
Import ListNotations.

Local Open Scope R_scope.

(** ** Points and geometry *)

(** [QgsPointXY]. *)
Record point := Pt { px : R; py : R }.

(** The angle of sample [i] in [create_circle_geometry]:
    [angle = 2 * pi * i / segments]. *)
Definition circle_angle (segments i : nat) : R :=
  2 * PI * INR i / INR segments.

(** The point appended at iteration [i] of the loop. *)
Definition circle_vertex (center : point) (radius : R) (segments i : nat) : point :=
  let angle := circle_angle segments i in
  Pt (px center + radius * cos angle) (py center + radius * sin angle).

(** [CircleDrawTool.create_circle_geometry(center, radius, segments)]:
    [for i in range(segments + 1)] samples one vertex; the single ring of
    the returned polygon is that list. *)
Definition create_circle_geometry (center : point) (radius : R) (segments : nat)
  : list point :=
  map (circle_vertex center radius segments) (seq 0 (S segments)).

(** The default [segments=36]. *)
Definition default_segments : nat := 36.

(** [QgsGeometry.centroid] of a single-ring polygon: the area centroid,
    computed with the shoelace sums over consecutive vertices of the ring. *)
Definition cross (p q : point) : R := px p * py q - px q * py p.

Fixpoint ring_sum (g : point -> point -> R) (ring : list point) : R :=
  match ring with
  | p :: ((q :: _) as rest) => g p q + ring_sum g rest
  | _ => 0
  end.

Definition centroid (ring : list point) : point :=
  let a2 := ring_sum cross ring in
  Pt (ring_sum (fun p q => (px p + px q) * cross p q) ring / (3 * a2))
     (ring_sum (fun p q => (py p + py q) * cross p q) ring / (3 * a2)).

(** Euclidean distance as computed in [create_circle]:
    [sqrt(dx*dx + dy*dy)]. *)
Definition distance (a b : point) : R :=
  let dx := px b - px a in
  let dy := py b - py a in
  sqrt (dx * dx + dy * dy).

(** ** Features, layers, tools and the window *)

(** A [QgsFeature] of the circle layer: its polygon ring and the two
    attributes of the schema built in [create_circle_layer]
    ([id]: integer, [radius]: double); [None] is a NULL attribute. *)
#[projections(primitive)]
Record feature := Feature {
  fgeom : list point;
  fid : option Z;
  fradius : option R }.

(** The data provider behind a [QgsVectorLayer]. *)
Inductive provider :=
| Memory
| Ogr (path : string).

(** A live [QgsVectorLayer]: its features in insertion order and whether an
    edit session is open ([isEditable()]). *)
#[projections(primitive)]
Record layer := Layer {
  lprovider : provider;
  lfeatures : list feature;
  leditable : bool }.

(** The fields of a [CircleDrawTool] instance. *)
#[projections(primitive)]
Record tool := Tool {
  t_layer : nat;                 (* self.layer: handle of a layer object *)
  t_rubber_band : option nat;    (* self.rubber_band: a scene item, or None *)
  t_start_point : option point;  (* self.start_point *)
  t_drawing : bool }.            (* self.drawing *)

(** The arguments of [CardExportWorker(project, circle_layer, geom, center,
    radius, output_path)]. *)
Record job := Job {
  j_layer : nat;
  j_geom : list point;
  j_center : point;
  j_radius : option R;
  j_output_path : string }.

(** The two [QMessageBox.warning] calls of [export_card]. *)
Inductive warning :=
| NoLayer     (* "Нет слоя" *)
| NoCircles.  (* "Нет кругов" *)

(** Observable side effects, in the order the code performs them. *)
Inductive event :=
| EvStartEditing (l : nat)
| EvAddFeature (l : nat)
| EvCommitChanges (l : nat)
| EvPrint
| EvTriggerRepaint (l : nat)
| EvCanvasRefresh
| EvWriteVectorFile (path : string)
| EvRemoveMapLayer (l : nat)
| EvAddMapLayer (l : nat)
| EvSetMapTool (t : nat)
| EvSetLayers (ls : list nat)
| EvWarning (w : warning)
| EvStartExport (j : job).

(** The [QGISMainWindow] together with the objects it reaches. *)
#[projections(primitive)]
Record window := Window {
  w_layers : list (nat * layer);  (* live [QgsVectorLayer] objects, by handle *)
  w_tools : list (nat * tool);  (* [CircleDrawTool] objects, by handle *)
  w_next : nat;  (* next fresh object handle *)
  w_project : list nat;  (* layers registered in [QgsProject.instance()] *)
  w_canvas_layers : list nat;  (* [canvas.layers()] *)
  w_map_tool : nat;  (* [canvas.mapTool()] *)
  w_circle_layer : option nat;  (* [self.circle_layer] *)
  w_circle_tool : nat;  (* [self.circle_tool] *)
  w_shapefile_path : option string;  (* [self.shapefile_path] (unset when the layer was invalid) *)
  w_scene : list (nat * list point);  (* rubber bands on the canvas scene, with their geometry *)
  w_disk : list (string * list feature);  (* vector files on disk *)
  w_export_job : option job;  (* [self.export_worker] *)
  w_log : list event }.  (* observable side effects, oldest first *)

Definition set_layers (v : list (nat * layer)) (w : window) : window :=
  {| w_layers := v; w_tools := w_tools w; w_next := w_next w;
     w_project := w_project w; w_canvas_layers := w_canvas_layers w; w_map_tool := w_map_tool w;
     w_circle_layer := w_circle_layer w; w_circle_tool := w_circle_tool w; w_shapefile_path := w_shapefile_path w;
     w_scene := w_scene w; w_disk := w_disk w; w_export_job := w_export_job w;
     w_log := w_log w |}.
Definition set_tools (v : list (nat * tool)) (w : window) : window :=
  {| w_layers := w_layers w; w_tools := v; w_next := w_next w;
     w_project := w_project w; w_canvas_layers := w_canvas_layers w; w_map_tool := w_map_tool w;
     w_circle_layer := w_circle_layer w; w_circle_tool := w_circle_tool w; w_shapefile_path := w_shapefile_path w;
     w_scene := w_scene w; w_disk := w_disk w; w_export_job := w_export_job w;
     w_log := w_log w |}.
Definition set_next (v : nat) (w : window) : window :=
  {| w_layers := w_layers w; w_tools := w_tools w; w_next := v;
     w_project := w_project w; w_canvas_layers := w_canvas_layers w; w_map_tool := w_map_tool w;
     w_circle_layer := w_circle_layer w; w_circle_tool := w_circle_tool w; w_shapefile_path := w_shapefile_path w;
     w_scene := w_scene w; w_disk := w_disk w; w_export_job := w_export_job w;
     w_log := w_log w |}.
Definition set_project (v : list nat) (w : window) : window :=
  {| w_layers := w_layers w; w_tools := w_tools w; w_next := w_next w;
     w_project := v; w_canvas_layers := w_canvas_layers w; w_map_tool := w_map_tool w;
     w_circle_layer := w_circle_layer w; w_circle_tool := w_circle_tool w; w_shapefile_path := w_shapefile_path w;
     w_scene := w_scene w; w_disk := w_disk w; w_export_job := w_export_job w;
     w_log := w_log w |}.
Definition set_canvas_layers (v : list nat) (w : window) : window :=
  {| w_layers := w_layers w; w_tools := w_tools w; w_next := w_next w;
     w_project := w_project w; w_canvas_layers := v; w_map_tool := w_map_tool w;
     w_circle_layer := w_circle_layer w; w_circle_tool := w_circle_tool w; w_shapefile_path := w_shapefile_path w;
     w_scene := w_scene w; w_disk := w_disk w; w_export_job := w_export_job w;
     w_log := w_log w |}.
Definition set_map_tool (v : nat) (w : window) : window :=
  {| w_layers := w_layers w; w_tools := w_tools w; w_next := w_next w;
     w_project := w_project w; w_canvas_layers := w_canvas_layers w; w_map_tool := v;
     w_circle_layer := w_circle_layer w; w_circle_tool := w_circle_tool w; w_shapefile_path := w_shapefile_path w;
     w_scene := w_scene w; w_disk := w_disk w; w_export_job := w_export_job w;
     w_log := w_log w |}.
Definition set_circle_layer (v : option nat) (w : window) : window :=
  {| w_layers := w_layers w; w_tools := w_tools w; w_next := w_next w;
     w_project := w_project w; w_canvas_layers := w_canvas_layers w; w_map_tool := w_map_tool w;
     w_circle_layer := v; w_circle_tool := w_circle_tool w; w_shapefile_path := w_shapefile_path w;
     w_scene := w_scene w; w_disk := w_disk w; w_export_job := w_export_job w;
     w_log := w_log w |}.
Definition set_circle_tool (v : nat) (w : window) : window :=
  {| w_layers := w_layers w; w_tools := w_tools w; w_next := w_next w;
     w_project := w_project w; w_canvas_layers := w_canvas_layers w; w_map_tool := w_map_tool w;
     w_circle_layer := w_circle_layer w; w_circle_tool := v; w_shapefile_path := w_shapefile_path w;
     w_scene := w_scene w; w_disk := w_disk w; w_export_job := w_export_job w;
     w_log := w_log w |}.
Definition set_shapefile_path (v : option string) (w : window) : window :=
  {| w_layers := w_layers w; w_tools := w_tools w; w_next := w_next w;
     w_project := w_project w; w_canvas_layers := w_canvas_layers w; w_map_tool := w_map_tool w;
     w_circle_layer := w_circle_layer w; w_circle_tool := w_circle_tool w; w_shapefile_path := v;
     w_scene := w_scene w; w_disk := w_disk w; w_export_job := w_export_job w;
     w_log := w_log w |}.
Definition set_scene (v : list (nat * list point)) (w : window) : window :=
  {| w_layers := w_layers w; w_tools := w_tools w; w_next := w_next w;
     w_project := w_project w; w_canvas_layers := w_canvas_layers w; w_map_tool := w_map_tool w;
     w_circle_layer := w_circle_layer w; w_circle_tool := w_circle_tool w; w_shapefile_path := w_shapefile_path w;
     w_scene := v; w_disk := w_disk w; w_export_job := w_export_job w;
     w_log := w_log w |}.
Definition set_disk (v : list (string * list feature)) (w : window) : window :=
  {| w_layers := w_layers w; w_tools := w_tools w; w_next := w_next w;
     w_project := w_project w; w_canvas_layers := w_canvas_layers w; w_map_tool := w_map_tool w;
     w_circle_layer := w_circle_layer w; w_circle_tool := w_circle_tool w; w_shapefile_path := w_shapefile_path w;
     w_scene := w_scene w; w_disk := v; w_export_job := w_export_job w;
     w_log := w_log w |}.
Definition set_export_job (v : option job) (w : window) : window :=
  {| w_layers := w_layers w; w_tools := w_tools w; w_next := w_next w;
     w_project := w_project w; w_canvas_layers := w_canvas_layers w; w_map_tool := w_map_tool w;
     w_circle_layer := w_circle_layer w; w_circle_tool := w_circle_tool w; w_shapefile_path := w_shapefile_path w;
     w_scene := w_scene w; w_disk := w_disk w; w_export_job := v;
     w_log := w_log w |}.
Definition add_log (e : event) (w : window) : window :=
  {| w_layers := w_layers w; w_tools := w_tools w; w_next := w_next w;
     w_project := w_project w; w_canvas_layers := w_canvas_layers w; w_map_tool := w_map_tool w;
     w_circle_layer := w_circle_layer w; w_circle_tool := w_circle_tool w; w_shapefile_path := w_shapefile_path w;
     w_scene := w_scene w; w_disk := w_disk w; w_export_job := w_export_job w;
     w_log := w_log w ++ [e] |}.

(** ** Python exceptions and the state-and-exception monad *)

(** [AttributeError] on [None]; [RuntimeError] on a wrapper whose C++ object
    has been deleted. *)
Inductive exn :=
| AttributeError
| RuntimeError.

(** A raised exception keeps the mutations done before the [raise]. *)
Inductive result (A : Type) :=
| Ok (a : A) (w : window)
| Raise (e : exn) (w : window).
Arguments Ok {A} a w.
Arguments Raise {A} e w.

Definition M (A : Type) := window -> result A.

Definition ret {A} (a : A) : M A := fun w => Ok a w.

Definition bind {A B} (m : M A) (k : A -> M B) : M B :=
  fun w => match m w with
           | Ok a w' => k a w'
           | Raise e w' => Raise e w'
           end.

Notation "x <- m ;; k" := (bind m (fun x => k))
  (at level 61, m at next level, right associativity).
Notation "m ;; k" := (bind m (fun _ => k)) (at level 61, right associativity).

Definition raise {A} (e : exn) : M A := fun w => Raise e w.
Definition gets {A} (f : window -> A) : M A := fun w => Ok (f w) w.
Definition modify (f : window -> window) : M unit := fun w => Ok tt (f w).
Definition log (e : event) : M unit := modify (add_log e).

(** The window after running a handler, whether it returned or raised. *)
Definition final_state {A} (r : result A) : window :=
  match r with Ok _ w => w | Raise _ w => w end.

(** ** Association lists: the object heap and the files *)

Fixpoint lookup {K A} (eqb : K -> K -> bool) (k : K) (l : list (K * A)) : option A :=
  match l with
  | [] => None
  | (k', a) :: t => if eqb k k' then Some a else lookup eqb k t
  end.

Fixpoint update {K A} (eqb : K -> K -> bool) (k : K) (a : A) (l : list (K * A))
  : list (K * A) :=
  match l with
  | [] => [(k, a)]
  | (k', a') :: t => if eqb k k' then (k, a) :: t else (k', a') :: update eqb k a t
  end.

Fixpoint remove_key {K A} (eqb : K -> K -> bool) (k : K) (l : list (K * A))
  : list (K * A) :=
  match l with
  | [] => []
  | (k', a') :: t => if eqb k k' then remove_key eqb k t else (k', a') :: remove_key eqb k t
  end.

(** Using a layer wrapper: [RuntimeError] once its object is deleted. *)
Definition get_layer (l : nat) : M layer :=
  fun w => match lookup Nat.eqb l (w_layers w) with
           | Some L => Ok L w
           | None => Raise RuntimeError w
           end.

Definition put_layer (l : nat) (L : layer) : M unit :=
  modify (fun w => set_layers (update Nat.eqb l L (w_layers w)) w).

Definition get_tool (t : nat) : M tool :=
  fun w => match lookup Nat.eqb t (w_tools w) with
           | Some T => Ok T w
           | None => Raise RuntimeError w
           end.

Definition put_tool (t : nat) (T : tool) : M unit :=
  modify (fun w => set_tools (update Nat.eqb t T (w_tools w)) w).

(** A fresh object handle. *)
Definition fresh : M nat :=
  fun w => Ok (w_next w) (set_next (S (w_next w)) w).

(** [self.shapefile_path]: [AttributeError] when never assigned. *)
Definition get_shapefile_path : M string :=
  fun w => match w_shapefile_path w with
           | Some p => Ok p w
           | None => Raise AttributeError w
           end.

(** ** Layer operations of the geospatial library *)

(** The outcomes of the library calls whose success the program tests:
    [layer.addFeature(feature)], [QgsVectorFileWriter.writeAsVectorFormat]
    returning [NoError], and the reopened [QgsVectorLayer(path, ..., "ogr")]
    being [isValid()]. *)
#[projections(primitive)]
Record ext := Ext {
  add_ok : bool;
  write_ok : bool;
  reopen_ok : bool }.

(** Every library call succeeds. *)
Definition all_ok : ext := Ext true true true.

Definition start_editing (l : nat) : M unit :=
  L <- get_layer l;;
  put_layer l (Layer (lprovider L) (lfeatures L) true);;
  log (EvStartEditing l).

(** [addFeature] appends to the layer and returns its success flag. *)
Definition add_feature (x : ext) (l : nat) (f : feature) : M bool :=
  L <- get_layer l;;
  log (EvAddFeature l);;
  if add_ok x
  then put_layer l (Layer (lprovider L) (lfeatures L ++ [f]) (leditable L));; ret true
  else ret false.

(** [commitChanges] closes the edit session; an [ogr] layer writes its
    features back to its file. *)
Definition commit_changes (l : nat) : M unit :=
  L <- get_layer l;;
  put_layer l (Layer (lprovider L) (lfeatures L) false);;
  (match lprovider L with
   | Memory => ret tt
   | Ogr p => modify (fun w => set_disk (update String.eqb p (lfeatures L) (w_disk w)) w)
   end);;
  log (EvCommitChanges l).

Definition trigger_repaint (l : nat) : M unit :=
  _ <- get_layer l;; log (EvTriggerRepaint l).

(** [project.removeMapLayer(id)]: the project unregisters the layer and,
    owning it since [addMapLayer], deletes the layer object. *)
Definition remove_map_layer (l : nat) : M unit :=
  registered <- gets (fun w => existsb (Nat.eqb l) (w_project w));;
  (if registered
   then modify (fun w =>
          set_layers (remove_key Nat.eqb l (w_layers w))
            (set_project (filter (fun k => negb (Nat.eqb l k)) (w_project w)) w))
   else ret tt);;
  log (EvRemoveMapLayer l).

Definition add_map_layer (l : nat) : M unit :=
  modify (fun w => set_project (w_project w ++ [l]) w);;
  log (EvAddMapLayer l).

(** [canvas.setMapTool(tool)]. *)
Definition canvas_set_map_tool (t : nat) : M unit :=
  modify (set_map_tool t);; log (EvSetMapTool t).

(** [canvas.setLayers(layers)]. *)
Definition canvas_set_layers (ls : list nat) : M unit :=
  modify (set_canvas_layers ls);; log (EvSetLayers ls).

(** ** [QGISMainWindow]: the shapefile hand-off *)

Definition shapefile_name : string := "circles.shp".
Definition card_export_name : string := "card_export.pdf".

(** [self.circle_layer]: [AttributeError] when it is [None] and used. *)
Definition get_circle_layer : M nat :=
  fun w => match w_circle_layer w with
           | Some l => Ok l w
           | None => Raise AttributeError w
           end.

(** [replace_memory_layer_with_shapefile]. *)
Definition replace_memory_layer_with_shapefile (x : ext) : M unit :=
  l <- get_circle_layer;;
  _ <- get_layer l;;                                (* self.circle_layer.id() *)
  remove_map_layer l;;
  p <- get_shapefile_path;;
  nl <- fresh;;                                     (* QgsVectorLayer(path, "Circles", "ogr") *)
  file <- gets (fun w => lookup String.eqb p (w_disk w));;
  match reopen_ok x, file with
  | true, Some feats =>                             (* shapefile_layer.isValid() *)
      put_layer nl (Layer (Ogr p) feats false);;
      add_map_layer nl;;
      modify (set_circle_layer (Some nl));;
      nt <- fresh;;                                 (* CircleDrawTool(canvas, circle_layer, self) *)
      put_tool nt (Tool nl None None false);;
      modify (set_circle_tool nt);;
      canvas_set_map_tool nt;;
      canvas_set_layers [nl];;
      log EvPrint
  | _, _ => log EvPrint                             (* "Ошибка загрузки shapefile" *)
  end.

(** [save_to_shapefile]: the arguments of [writeAsVectorFormat] are
    evaluated left to right, then the file is written from the layer's
    features. *)
Definition save_to_shapefile (x : ext) : M unit :=
  l <- get_circle_layer;;
  p <- get_shapefile_path;;
  L <- get_layer l;;                                (* self.circle_layer.crs() *)
  if write_ok x then
    modify (fun w => set_disk (update String.eqb p (lfeatures L) (w_disk w)) w);;
    log (EvWriteVectorFile p);;
    log EvPrint;;
    replace_memory_layer_with_shapefile x
  else log EvPrint.                                 (* "Ошибка сохранения" *)

(** ** [CircleDrawTool] *)

(** The discard threshold of [create_circle]. *)
Definition min_radius : R := 1 / 1000.

(** [create_circle(start_point, end_point)] of the tool [tid]. *)
Definition create_circle (x : ext) (tid : nat) (start_point : option point)
  (end_point : point) : M unit :=
  match start_point with
  | None => raise AttributeError                    (* None.x() *)
  | Some sp =>
      let radius := distance sp end_point in
      if Rlt_dec radius min_radius then ret tt else
      let circle_geom := create_circle_geometry sp radius default_segments in
      T <- get_tool tid;;
      let l := t_layer T in
      L <- get_layer l;;                            (* self.layer.fields() *)
      (* QgsFeature(fields): every attribute NULL; then setAttribute("radius") *)
      let feat := Feature circle_geom None (Some radius) in
      (if leditable L then ret tt else start_editing l);;
      result <- add_feature x l feat;;
      commit_changes l;;
      if result then
        log EvPrint;;
        trigger_repaint l;;
        log EvCanvasRefresh;;
        save_to_shapefile x
      else ret tt
  end.

Inductive button :=
| LeftButton
| RightButton
| MiddleButton.

Definition is_left (b : button) : bool :=
  match b with LeftButton => true | _ => false end.

(** [canvasPressEvent]: [pos] is [toMapCoordinates(event.pos())]; the new
    [QgsRubberBand] is an item of the canvas scene. *)
Definition canvasPressEvent (tid : nat) (b : button) (pos : point) : M unit :=
  if is_left b then
    T <- get_tool tid;;
    rb <- fresh;;
    modify (fun w => set_scene (w_scene w ++ [(rb, [])]) w);;
    put_tool tid (Tool (t_layer T) (Some rb) (Some pos) true)
  else ret tt.

(** [update_rubber_band(current_point)]. *)
Definition update_rubber_band (tid : nat) (current_point : point) : M unit :=
  T <- get_tool tid;;
  match t_rubber_band T, t_start_point T with
  | Some rb, Some sp =>
      let radius := distance sp current_point in
      let circle_geom := create_circle_geometry sp radius default_segments in
      modify (fun w => set_scene (update Nat.eqb rb circle_geom (w_scene w)) w)
  | _, _ => ret tt
  end.

(** [canvasMoveEvent]. *)
Definition canvasMoveEvent (tid : nat) (pos : point) : M unit :=
  T <- get_tool tid;;
  match t_drawing T, t_start_point T with
  | true, Some _ => update_rubber_band tid pos
  | _, _ => ret tt
  end.

(** [canvasReleaseEvent]. *)
Definition canvasReleaseEvent (x : ext) (tid : nat) (b : button) (pos : point)
  : M unit :=
  T <- get_tool tid;;
  if is_left b && t_drawing T then
    create_circle x tid (t_start_point T) pos;;
    T1 <- get_tool tid;;
    (match t_rubber_band T1 with
     | Some rb =>
         modify (fun w => set_scene (remove_key Nat.eqb rb (w_scene w)) w);;
         put_tool tid (Tool (t_layer T1) None (t_start_point T1) (t_drawing T1))
     | None => ret tt
     end);;
    T2 <- get_tool tid;;
    put_tool tid (Tool (t_layer T2) (t_rubber_band T2) None false)
  else ret tt.

(** ** [QGISMainWindow.export_card] *)

Fixpoint last_opt {A} (l : list A) : option A :=
  match l with
  | [] => None
  | [a] => Some a
  | _ :: t => last_opt t
  end.

(** [export_card]: [features[-1]] of [list(getFeatures())]; the worker is
    built from the feature's geometry, its centroid, its [radius] attribute
    and a live reference to the layer. *)
Definition export_card : M unit :=
  cl <- gets w_circle_layer;;
  match cl with
  | None => log (EvWarning NoLayer)
  | Some l =>
      L <- get_layer l;;                            (* getFeatures() *)
      match last_opt (lfeatures L) with
      | None => log (EvWarning NoCircles)
      | Some circle =>
          let geom := fgeom circle in
          let center := centroid geom in
          let radius := fradius circle in
          let j := Job l geom center radius card_export_name in
          modify (set_export_job (Some j));;
          log (EvStartExport j)
      end
  end.

(** ** [CardExportWorker.run] *)

Inductive signal :=
| Progress (v : nat)
| Finished.

(** [QgsRectangle]. *)
Record rect := Rect { xmin : R; ymin : R; xmax : R; ymax : R }.

Fixpoint bbox_from (r : rect) (l : list point) : rect :=
  match l with
  | [] => r
  | p :: t => bbox_from (Rect (Rmin (xmin r) (px p)) (Rmin (ymin r) (py p))
                              (Rmax (xmax r) (px p)) (Rmax (ymax r) (py p))) t
  end.

(** [geom.boundingBox()]. *)
Definition bounding_box (g : list point) : rect :=
  match g with
  | [] => Rect 0 0 0 0
  | p :: t => bbox_from (Rect (px p) (py p) (px p) (py p)) t
  end.

(** [rect.grow(delta)]: every side moves out by [delta]. *)
Definition grow (r : rect) (delta : R) : rect :=
  Rect (xmin r - delta) (ymin r - delta) (xmax r + delta) (ymax r + delta).

(** What [exportToPdf] writes: the map frame (its layers, its extent and the
    features of those layers at rendering time), the label built from
    [center] and [radius], and the output path. *)
Record card := Card {
  c_map_layers : list nat;
  c_extent : rect;
  c_rendered : list feature;
  c_label : point * R;
  c_path : string }.

(** The worker's own writer-and-exception monad: the emitted signals, and
    the value or [None] once a step raised. *)
Definition W (A : Type) := (list signal * option A)%type.

Definition wret {A} (a : A) : W A := ([], Some a).

Definition wbind {A B} (m : W A) (k : A -> W B) : W B :=
  match m with
  | (tr, None) => (tr, None)
  | (tr, Some a) => let (tr', r) := k a in (tr ++ tr', r)
  end.

Notation "x <-- m ;;; k" := (wbind m (fun x => k))
  (at level 61, m at next level, right associativity).
Notation "m ;;; k" := (wbind m (fun _ => k)) (at level 61, right associativity).

Definition emit (v : nat) : W unit := ([Progress v], Some tt).

(** An internal step: [raises k] says whether library step [k] raised. *)
Definition internal {A} (raises : nat -> bool) (k : nat) (a : A) : W A :=
  if raises k then ([], None) else ([], Some a).

(** A library call that raises when its argument is missing. *)
Definition require {A} (o : option A) : W A :=
  match o with Some a => ([], Some a) | None => ([], None) end.

(** The features the map frame draws when it is rendered: those of its
    layer if the layer object is still live. The frame holds its layers by
    weak reference and skips one that has been deleted. *)
Definition frame_features (store : list (nat * layer)) (l : nat) : list feature :=
  match lookup Nat.eqb l store with
  | Some L => lfeatures L
  | None => []
  end.

(** The [try] block of [run]. [heap k] is the set of live layer objects
    when step [k] runs: the job runs on its own thread while the
    interactive thread keeps mutating the layers. *)
Definition run_body (j : job) (raises : nat -> bool)
  (heap : nat -> list (nat * layer)) : W card :=
  emit 10;;;
  internal raises 1 tt;;;                 (* QgsPrintLayout, layoutManager *)
  emit 30;;;
  _ <-- require (lookup Nat.eqb (j_layer j) (heap 2%nat));;;   (* setLayers([self.circle_layer]) *)
  let r := bounding_box (j_geom j) in
  let extent := grow r ((xmax r - xmin r) * (1 / 2)) in
  internal raises 2 tt;;;                 (* QgsLayoutItemMap *)
  emit 60;;;
  radius <-- require (j_radius j);;;      (* f"{self.radius:.2f}" *)
  internal raises 3 tt;;;                 (* QgsLayoutItemLabel *)
  emit 80;;;
  c <-- internal raises 4                 (* exportToPdf: rendering the map frame *)
         (Card [j_layer j] extent (frame_features (heap 4%nat) (j_layer j))
            (j_center j, radius) (j_output_path j));;;
  emit 100;;;
  wret c.

(** [run]: [finally: self.finished.emit()]. *)
Definition run (j : job) (raises : nat -> bool) (heap : nat -> list (nat * layer))
  : W card :=
  let (tr, r) := run_body j raises heap in (tr ++ [Finished], r).

(** ** The application *)

(** [QGISMainWindow.__init__] with [setup_project]: the memory layer is
    handle 0 and the first [CircleDrawTool] handle 1. When the memory layer
    is not valid, [create_circle_layer] returns before assigning
    [shapefile_path]. *)
Definition init_window (valid : bool) : window :=
  {| w_layers := [(0%nat, Layer Memory [] false)];
     w_tools := [(1%nat, Tool 0 None None false)];
     w_next := 2;
     w_project := [0%nat];
     w_canvas_layers := [0%nat];
     w_map_tool := 1;
     w_circle_layer := Some 0%nat;
     w_circle_tool := 1;
     w_shapefile_path := if valid then Some shapefile_name else None;
     w_scene := [];
     w_disk := [];
     w_export_job := None;
     w_log := [] |}.

(** User input: canvas events go to the canvas's current map tool. *)
Inductive input :=
| InPress (b : button) (pos : point)
| InMove (pos : point)
| InRelease (x : ext) (b : button) (pos : point)
| InExportCard.

Definition handle (i : input) : M unit :=
  tid <- gets w_map_tool;;
  match i with
  | InPress b pos => canvasPressEvent tid b pos
  | InMove pos => canvasMoveEvent tid pos
  | InRelease x b pos => canvasReleaseEvent x tid b pos
  | InExportCard => export_card
  end.

(** The event loop goes on after a handler raised. *)
Definition step (w : window) (i : input) : window := final_state (handle i w).

Definition run_inputs (w : window) (is : list input) : window := fold_left step is w.

(** The geometry stays folded while handlers are evaluated symbolically. *)
Arguments create_circle_geometry : simpl never.
Arguments distance : simpl never.
Arguments centroid : simpl never.

(** ** Observations on the worker's signals *)

Fixpoint progress_values (s : list signal) : list nat :=
  match s with
  | [] => []
  | Progress v :: t => v :: progress_values t
  | Finished :: t => progress_values t
  end.

Fixpoint count_finished (s : list signal) : nat :=
  match s with
  | [] => 0
  | Finished :: t => S (count_finished t)
  | Progress _ :: t => count_finished t
  end.

Fixpoint is_prefix (a b : list nat) : bool :=
  match a, b with
  | [], _ => true
  | x :: a', y :: b' => Nat.eqb x y && is_prefix a' b'
  | _ :: _, [] => false
  end.

(** The progress values of the [try] block of [run], in order. *)
Definition full_progress : list nat := [10; 30; 60; 80; 100]%nat.

(** ** [QGISMainWindow.save_project] *)




(** ** The drawing state of the tools *)

(** A tool is drawing exactly when it has a start point. *)
Definition tool_ok (T : tool) : Prop :=
  t_drawing T = true <-> t_start_point T <> None.

Definition tools_ok (w : window) : Prop := Forall (fun kT => tool_ok (snd kT)) (w_tools w).

(** [m] keeps [tools_ok] whether it returns or raises, and its result
    satisfies [Q]. *)
Definition ttriple {A} (m : M A) (Q : A -> Prop) : Prop :=
  forall w, tools_ok w ->
    match m w with
    | Ok a w' => tools_ok w' /\ Q a
    | Raise _ w' => tools_ok w'
    end.

(** ** The [id] attribute *)

(** A feature whose [id] attribute is NULL. *)
Definition fid_unset (f : feature) : Prop := fid f = None.

Definition layer_ok (L : layer) : Prop := Forall fid_unset (lfeatures L).

(** Every feature of every live layer and of every file on disk has a NULL
    [id]. *)
Definition fids_unset (w : window) : Prop :=
  Forall (fun kL => layer_ok (snd kL)) (w_layers w)
  /\ Forall (fun pf => Forall fid_unset (snd pf)) (w_disk w).

(** [m] keeps [fids_unset] whether it returns or raises, and its result
    satisfies [Q]. *)
Definition triple {A} (m : M A) (Q : A -> Prop) : Prop :=
  forall w, fids_unset w ->
    match m w with
    | Ok a w' => fids_unset w' /\ Q a
    | Raise _ w' => fids_unset w'
    end.

(** ** Sample inputs *)

(** No internal step of the worker raises. *)
Definition no_raise : nat -> bool := fun _ => false.

(** A drag of length 10 whose shapefile is written but does not reopen as a
    valid layer. *)
Definition after_failed_reopen : list input :=
  [InPress LeftButton (Pt 0 0); InRelease (Ext true true false) LeftButton (Pt 10 0)].


Definition empty_store : list (nat * layer) := [(0%nat, Layer Memory [] false)].


(** The initial window after a left press at (0, 0). *)
Definition drawing_window : window :=
  final_state (canvasPressEvent 1 LeftButton (Pt 0 0) (init_window true)).

(** A job whose feature has a NULL [radius] attribute. *)
Definition job_without_radius : job := Job 0 [Pt 0 0] (Pt 0 0) None card_export_name.

(** ** Finite sums over indices *)

Fixpoint sum_to (n : nat) (h : nat -> R) : R :=
  match n with
  | O => 0
  | S m => sum_to m h + h m
  end.

(** ** Translating a ring *)

(** [rel c p]: the vector from [c] to [p]. *)
Definition rel (c p : point) : point := Pt (px p - px c) (py p - py c).

(** The terms by which the shoelace sums of a ring change when the ring is
    translated by [c]; they telescope along a closed ring. *)
Definition tele_area (c p : point) : R :=
  px c * (py p - py c) - py c * (px p - px c).

Definition tele_x (c p : point) : R :=
  2 * px c * tele_area c p + px c * (px p - px c) * (py p - py c)
  - py c * (px p - px c) * (px p - px c).

Definition tele_y (c p : point) : R :=
  2 * py c * tele_area c p + px c * (py p - py c) * (py p - py c)
  - py c * (px p - px c) * (py p - py c).

(** ** Sums *)

Lemma sum_to_ext n h1 h2 :
  (forall i, (i < n)%nat -> h1 i = h2 i) -> sum_to n h1 = sum_to n h2.
Proof.
  induction n as [|n IH]; intros E; simpl; [reflexivity|].
  rewrite IH by (intros; apply E; lia). rewrite E by lia. reflexivity.
Qed.

Lemma sum_to_plus n h1 h2 :
  sum_to n (fun i => h1 i + h2 i) = sum_to n h1 + sum_to n h2.
Proof. induction n as [|n IH]; simpl; [lra|]. rewrite IH. lra. Qed.

Lemma sum_to_scal n c h :
  sum_to n (fun i => c * h i) = c * sum_to n h.
Proof. induction n as [|n IH]; simpl; [lra|]. rewrite IH. lra. Qed.

Lemma sum_to_const n c : sum_to n (fun _ => c) = INR n * c.
Proof.
  induction n as [|n IH]; simpl sum_to; [simpl; lra|].
  rewrite IH, S_INR. lra.
Qed.

Lemma sum_to_telescope n h :
  sum_to n (fun i => h (S i) - h i) = h n - h O.
Proof. induction n as [|n IH]; simpl; [lra|]. rewrite IH. lra. Qed.

Lemma sum_to_shift n h :
  sum_to (S n) h = h O + sum_to n (fun i => h (S i)).
Proof.
  induction n as [|n IH].
  - simpl. lra.
  - change (sum_to (S (S n)) h) with (sum_to (S n) h + h (S n)).
    rewrite IH. simpl. lra.
Qed.

Lemma ring_sum_cons2 g p q rest :
  ring_sum g (p :: q :: rest) = g p q + ring_sum g (q :: rest).
Proof. reflexivity. Qed.

(** The shoelace sums over [map f (seq k (S n))] are index sums. *)
Lemma ring_sum_map_seq g f n k :
  ring_sum g (map f (seq k (S n)))
  = sum_to n (fun i => g (f (k + i)%nat) (f (S (k + i)))).
Proof.
  revert k. induction n as [|n IH]; intros k; [reflexivity|].
  change (map f (seq k (S (S n)))) with (f k :: f (S k) :: map f (seq (S (S k)) n)).
  rewrite ring_sum_cons2.
  change (f (S k) :: map f (seq (S (S k)) n)) with (map f (seq (S k) (S n))).
  rewrite IH, sum_to_shift.
  rewrite Nat.add_0_r. f_equal.
  apply sum_to_ext. intros i _. rewrite Nat.add_succ_r. reflexivity.
Qed.

(** ** The centroid of a closed ring, relative to a point *)

Lemma cross_translate c p q :
  cross p q = cross (rel c p) (rel c q) + (tele_area c q - tele_area c p).
Proof. unfold cross, rel, tele_area; simpl; ring. Qed.

Lemma moment_x_translate c p q :
  (px p + px q) * cross p q
  = 3 * px c * cross (rel c p) (rel c q)
    + cross (rel c p) (rel c q) * (px (rel c p) + px (rel c q))
    + (tele_x c q - tele_x c p).
Proof. unfold cross, rel, tele_x, tele_area; simpl; ring. Qed.

Lemma moment_y_translate c p q :
  (py p + py q) * cross p q
  = 3 * py c * cross (rel c p) (rel c q)
    + cross (rel c p) (rel c q) * (py (rel c p) + py (rel c q))
    + (tele_y c q - tele_y c p).
Proof. unfold cross, rel, tele_y, tele_area; simpl; ring. Qed.

(** A closed ring [f 0, ..., f n] ([f n = f 0]) whose consecutive vertices
    span the same signed area [K] seen from [c], and whose vertices sum to
    [c], has its area centroid at [c]. *)
Lemma centroid_closed_ring c f n K :
  f n = f O ->
  INR n * K <> 0 ->
  (forall i, cross (rel c (f i)) (rel c (f (S i))) = K) ->
  sum_to n (fun i => px (rel c (f i))) = 0 ->
  sum_to n (fun i => py (rel c (f i))) = 0 ->
  centroid (map f (seq 0 (S n))) = c.
Proof.
  intros Hclosed HnK HK Hsx Hsy.
  unfold centroid. rewrite !ring_sum_map_seq. cbn [Nat.add].
  assert (HA : sum_to n (fun i => cross (f i) (f (S i))) = INR n * K).
  { rewrite (sum_to_ext _ _
      (fun i => K + (tele_area c (f (S i)) - tele_area c (f i)))).
    - rewrite sum_to_plus, sum_to_const.
      rewrite (sum_to_telescope n (fun j => tele_area c (f j))), Hclosed. lra.
    - intros i _. rewrite (cross_translate c), HK. reflexivity. }
  assert (Hshift : forall h : nat -> R, h n = h O ->
            sum_to n (fun i => h (S i)) = sum_to n h).
  { intros h Hh.
    rewrite (sum_to_ext _ _ (fun i => h i + (h (S i) - h i))) by (intros; ring).
    rewrite sum_to_plus, (sum_to_telescope n h), Hh. ring. }
  assert (HX : sum_to n (fun i => (px (f i) + px (f (S i))) * cross (f i) (f (S i)))
               = 3 * px c * (INR n * K)).
  { rewrite (sum_to_ext _ _
      (fun i => 3 * px c * K
                + K * (px (rel c (f i)) + px (rel c (f (S i))))
                + (tele_x c (f (S i)) - tele_x c (f i)))).
    - rewrite !sum_to_plus, sum_to_const, sum_to_scal.
      rewrite (sum_to_telescope n (fun j => tele_x c (f j))), Hclosed.
      rewrite sum_to_plus, Hsx.
      rewrite (Hshift (fun i => px (rel c (f i)))) by (rewrite Hclosed; reflexivity).
      rewrite Hsx. ring.
    - intros i _. rewrite (moment_x_translate c), HK. reflexivity. }
  assert (HY : sum_to n (fun i => (py (f i) + py (f (S i))) * cross (f i) (f (S i)))
               = 3 * py c * (INR n * K)).
  { rewrite (sum_to_ext _ _
      (fun i => 3 * py c * K
                + K * (py (rel c (f i)) + py (rel c (f (S i))))
                + (tele_y c (f (S i)) - tele_y c (f i)))).
    - rewrite !sum_to_plus, sum_to_const, sum_to_scal.
      rewrite (sum_to_telescope n (fun j => tele_y c (f j))), Hclosed.
      rewrite sum_to_plus, Hsy.
      rewrite (Hshift (fun i => py (rel c (f i)))) by (rewrite Hclosed; reflexivity).
      rewrite Hsy. ring.
    - intros i _. rewrite (moment_y_translate c), HK. reflexivity. }
  rewrite HA, HX, HY. destruct c as [cx cy]. simpl.
  assert (K <> 0 /\ INR n <> 0) as [HK0 Hn0]
    by (split; intros E; apply HnK; rewrite E; ring).
  f_equal; field; auto.
Qed.

(** ** The sampled circle *)

Lemma INR_ge_2 n : (2 <= n)%nat -> 2 <= INR n.
Proof. intros H. apply le_INR in H. simpl in H. lra. Qed.

Lemma circle_angle_0 n : circle_angle n 0 = 0.
Proof. unfold circle_angle. simpl. unfold Rdiv. ring. Qed.

Lemma circle_angle_full n : (1 <= n)%nat -> circle_angle n n = 2 * PI.
Proof.
  intros H. unfold circle_angle. apply le_INR in H. simpl in H.
  field. lra.
Qed.

Lemma circle_angle_S n i :
  (1 <= n)%nat -> circle_angle n (S i) = circle_angle n i + 2 * (PI / INR n).
Proof.
  intros H. unfold circle_angle. apply le_INR in H. simpl in H.
  rewrite S_INR. field. lra.
Qed.

(** The last sample repeats the first one (exact arithmetic). *)
Lemma circle_vertex_closed c r n :
  (1 <= n)%nat -> circle_vertex c r n n = circle_vertex c r n 0.
Proof.
  intros H. unfold circle_vertex.
  rewrite circle_angle_full, circle_angle_0 by exact H.
  rewrite cos_2PI, sin_2PI, cos_0, sin_0. reflexivity.
Qed.

Lemma half_step_pos n : (2 <= n)%nat -> 0 < sin (PI / INR n).
Proof.
  intros H. apply INR_ge_2 in H. pose proof PI_RGT_0.
  assert (E : PI / INR n * INR n = PI) by (field; lra).
  apply sin_gt_0; [apply Rdiv_lt_0_compat; lra | nra].
Qed.

Lemma full_step_pos n : (3 <= n)%nat -> 0 < sin (2 * (PI / INR n)).
Proof.
  intros H. apply le_INR in H. simpl in H. pose proof PI_RGT_0.
  assert (E : PI / INR n * INR n = PI) by (field; lra).
  assert (0 < PI / INR n) by (apply Rdiv_lt_0_compat; lra).
  apply sin_gt_0; nra.
Qed.

(** The samples, seen from the center, sum to zero: the cosines and the
    sines of [2*pi*i/n] for [i < n] sum to zero when [n >= 2]. *)
Lemma sum_cos_angles n :
  (2 <= n)%nat -> sum_to n (fun i => cos (circle_angle n i)) = 0.
Proof.
  intros H. set (d := PI / INR n).
  assert (Hd : 0 < sin d) by (apply half_step_pos; exact H).
  assert (E : 2 * sin d * sum_to n (fun i => cos (circle_angle n i))
              = sum_to n (fun i => sin (circle_angle n (S i) - d)
                                   - sin (circle_angle n i - d))).
  { rewrite <- sum_to_scal. apply sum_to_ext. intros i _.
    rewrite circle_angle_S by lia. fold d.
    replace (circle_angle n i + 2 * d - d) with (circle_angle n i + d) by ring.
    rewrite sin_plus, sin_minus. ring. }
  rewrite (sum_to_telescope n (fun j => sin (circle_angle n j - d))) in E.
  rewrite circle_angle_full, circle_angle_0 in E by lia.
  rewrite !sin_minus, sin_2PI, cos_2PI, sin_0, cos_0 in E.
  assert (2 * sin d <> 0) by lra.
  apply (Rmult_eq_reg_l (2 * sin d)); [lra | exact H0].
Qed.

Lemma sum_sin_angles n :
  (2 <= n)%nat -> sum_to n (fun i => sin (circle_angle n i)) = 0.
Proof.
  intros H. set (d := PI / INR n).
  assert (Hd : 0 < sin d) by (apply half_step_pos; exact H).
  assert (E : 2 * sin d * sum_to n (fun i => sin (circle_angle n i))
              = sum_to n (fun i => - cos (circle_angle n (S i) - d)
                                   - - cos (circle_angle n i - d))).
  { rewrite <- sum_to_scal. apply sum_to_ext. intros i _.
    rewrite circle_angle_S by lia. fold d.
    replace (circle_angle n i + 2 * d - d) with (circle_angle n i + d) by ring.
    rewrite cos_plus, cos_minus. ring. }
  rewrite (sum_to_telescope n (fun j => - cos (circle_angle n j - d))) in E.
  rewrite circle_angle_full, circle_angle_0 in E by lia.
  rewrite !cos_minus, sin_2PI, cos_2PI, sin_0, cos_0 in E.
  apply (Rmult_eq_reg_l (2 * sin d)); lra.
Qed.

(** Consecutive samples span the same signed area seen from the center. *)
Lemma circle_cross_step c r n i :
  (1 <= n)%nat ->
  cross (rel c (circle_vertex c r n i)) (rel c (circle_vertex c r n (S i)))
  = r * r * sin (2 * (PI / INR n)).
Proof.
  intros H. unfold cross, rel, circle_vertex. cbn [px py].
  rewrite circle_angle_S by exact H.
  set (a := circle_angle n i). set (b := 2 * (PI / INR n)).
  rewrite sin_plus, cos_plus.
  pose proof (sin2_cos2 a) as E. unfold Rsqr in E.
  replace (r * r * sin b) with (r * r * sin b * (sin a * sin a + cos a * cos a))
    by (rewrite E; ring).
  ring.
Qed.

(** The area centroid of the sampled ring is the center, for every
    nonzero radius and every segment count [n >= 3]. *)
Lemma centroid_circle_geometry c r n :
  (3 <= n)%nat -> r <> 0 -> centroid (create_circle_geometry c r n) = c.
Proof.
  intros Hn Hr. unfold create_circle_geometry.
  apply (centroid_closed_ring c _ n (r * r * sin (2 * (PI / INR n)))).
  - apply circle_vertex_closed. lia.
  - pose proof (full_step_pos n Hn). apply le_INR in Hn. simpl in Hn.
    assert (0 < r * r) by nra. intros E.
    assert (0 < INR n * (r * r * sin (2 * (PI / INR n)))); [|lra].
    apply Rmult_lt_0_compat; [lra|]. apply Rmult_lt_0_compat; lra.
  - intros i. apply circle_cross_step. lia.
  - rewrite (sum_to_ext _ _ (fun i => r * cos (circle_angle n i)))
      by (intros; unfold rel, circle_vertex; simpl; ring).
    rewrite sum_to_scal, sum_cos_angles by lia. ring.
  - rewrite (sum_to_ext _ _ (fun i => r * sin (circle_angle n i)))
      by (intros; unfold rel, circle_vertex; simpl; ring).
    rewrite sum_to_scal, sum_sin_angles by lia. ring.
Qed.

(** ** C5: the signals of the export worker *)

(** C5: every execution of [CardExportWorker.run], whichever internal step
    raises (the [raises] oracle, a deleted layer, a NULL radius), emits
    [finished] exactly once and as its last signal; the progress values
    before it are a prefix of 10, 30, 60, 80, 100, and all of it when no
    step raised. *)
Theorem run_signals (j : job) (raises : nat -> bool)
  (heap : nat -> list (nat * layer)) :
  let tr := fst (run j raises heap) in
  tr = map Progress (progress_values tr) ++ [Finished]
  /\ count_finished tr = 1%nat
  /\ is_prefix (progress_values tr) full_progress = true
  /\ (snd (run j raises heap) <> None -> progress_values tr = full_progress).
Proof.
  unfold run, run_body, wbind, emit, internal, require, wret.
  destruct (raises 1%nat); [cbn; repeat split; congruence|].
  destruct (lookup Nat.eqb (j_layer j) (heap 2%nat)); [|cbn; repeat split; congruence].
  destruct (raises 2%nat); [cbn; repeat split; congruence|].
  destruct (j_radius j); [|cbn; repeat split; congruence].
  destruct (raises 3%nat); [cbn; repeat split; congruence|].
  destruct (raises 4%nat); cbn; repeat split; congruence.
Qed.

(** ** Evaluating handlers *)

Lemma lookup_update_nat {A} (l : nat) (v : A) ls :
  lookup Nat.eqb l (update Nat.eqb l v ls) = Some v.
Proof.
  induction ls as [|[k a] t IH]; cbn; [rewrite Nat.eqb_refl; reflexivity|].
  destruct (Nat.eqb l k) eqn:E; cbn; [rewrite Nat.eqb_refl; reflexivity|].
  rewrite E. exact IH.
Qed.

Lemma lookup_update_str {A} (p : string) (v : A) ls :
  lookup String.eqb p (update String.eqb p v ls) = Some v.
Proof.
  induction ls as [|[k a] t IH]; cbn; [rewrite String.eqb_refl; reflexivity|].
  destruct (String.eqb p k) eqn:E; cbn; [rewrite String.eqb_refl; reflexivity|].
  rewrite E. exact IH.
Qed.

Lemma lookup_update_nat_other {A} (l k : nat) (v : A) ls :
  k <> l -> lookup Nat.eqb k (update Nat.eqb l v ls) = lookup Nat.eqb k ls.
Proof.
  intros Hne. induction ls as [|[k' a] t IH]; cbn.
  - apply Nat.eqb_neq in Hne. rewrite Hne. reflexivity.
  - destruct (Nat.eqb l k') eqn:E; cbn.
    + apply Nat.eqb_eq in E. subst k'. apply Nat.eqb_neq in Hne. rewrite Hne. reflexivity.
    + destruct (Nat.eqb k k'); [reflexivity | exact IH].
Qed.

Ltac use_hyps :=
  repeat match goal with
         | H : ?a = _ |- context [?a] => progress rewrite H
         end.

Ltac exec :=
  repeat progress (
    cbv beta iota zeta delta [bind ret gets modify log raise fresh get_layer put_layer
      get_tool put_tool get_shapefile_path get_circle_layer start_editing
      add_feature commit_changes trigger_repaint remove_map_layer add_map_layer
      canvas_set_map_tool canvas_set_layers final_state
      set_layers set_tools set_next set_project set_canvas_layers
      set_map_tool set_circle_layer set_circle_tool set_shapefile_path set_scene
      set_disk set_export_job add_log
      w_layers w_tools w_next w_project w_canvas_layers w_map_tool w_circle_layer
      w_circle_tool w_shapefile_path w_scene w_disk w_export_job w_log
      lprovider lfeatures leditable t_layer t_rubber_band t_start_point t_drawing
      add_ok write_ok reopen_ok fgeom fid fradius] in *;
    rewrite ?lookup_update_nat, ?lookup_update_str in *; use_hyps).

Lemma distance_horizontal (a b y : R) :
  a <= b -> distance (Pt a y) (Pt b y) = b - a.
Proof.
  intros Hab. unfold distance. cbn [px py].
  replace ((b - a) * (b - a) + (y - y) * (y - y)) with ((b - a) * (b - a)) by ring.
  apply sqrt_square. lra.
Qed.

(** ** C2: the discard threshold *)

(** C2 (as amended): a drag strictly shorter than [0.001] is discarded by
    [create_circle] without any effect: the window (layers, project, canvas,
    files, log of repaints, writes and messages) is returned unchanged and
    nothing is raised. *)
Theorem create_circle_below_threshold (x : ext) (tid : nat) (sp ep : point)
  (w : window) :
  distance sp ep < min_radius ->
  create_circle x tid (Some sp) ep w = Ok tt w.
Proof.
  intros H. unfold create_circle.
  destruct (Rlt_dec (distance sp ep) min_radius) as [_|N]; [reflexivity|].
  contradiction.
Qed.

Lemma create_circle_below_threshold_witness :
  distance (Pt 0 0) (Pt 0 0) < min_radius
  /\ create_circle all_ok 1 (Some (Pt 0 0)) (Pt 0 0) (init_window true)
     = Ok tt (init_window true).
Proof.
  assert (H : distance (Pt 0 0) (Pt 0 0) < min_radius)
    by (rewrite distance_horizontal by lra; unfold min_radius; lra).
  split; [exact H|].
  apply (create_circle_below_threshold all_ok 1 (Pt 0 0) (Pt 0 0) (init_window true)).
  exact H.
Defined.

(** C2 fails at distance exactly [0.001]: the guard is [radius < 0.001],
    so a drag from (0, 0) to (0.001, 0) commits a circle, repaints the layer
    and writes the shapefile. *)
Lemma create_circle_commits_at_threshold :
  distance (Pt 0 0) (Pt (1 / 1000) 0) = min_radius
  /\ match create_circle all_ok 1 (Some (Pt 0 0)) (Pt (1 / 1000) 0) (init_window true) with
     | Ok _ w' =>
         match w_circle_layer w' with
         | Some l => option_map (fun L => List.length (lfeatures L))
                       (lookup Nat.eqb l (w_layers w')) = Some 1%nat
         | None => False
         end
         /\ In (EvTriggerRepaint 0) (w_log w')
         /\ In (EvWriteVectorFile shapefile_name) (w_log w')
     | Raise _ _ => False
     end.
Proof.
  assert (H : distance (Pt 0 0) (Pt (1 / 1000) 0) = min_radius)
    by (rewrite distance_horizontal by lra; unfold min_radius; lra).
  split; [exact H|].
  unfold create_circle.
  destruct (Rlt_dec (distance (Pt 0 0) (Pt (1 / 1000) 0)) min_radius) as [L|_];
    [rewrite H in L; lra|].
  unfold init_window, save_to_shapefile, replace_memory_layer_with_shapefile, all_ok.
  cbv -[distance create_circle_geometry centroid Rdiv].
  split; [reflexivity|split]; repeat (first [left; reflexivity | right]).
Qed.

(** ** C3: committing a circle *)

(** C3: when the drag is at least [0.001] long, [addFeature] succeeds and
    the written shapefile reopens whenever it is written, [create_circle]
    returns normally and the circle layer of the window afterwards (the
    memory layer, or the shapefile layer that replaced it) holds the
    features it held before plus exactly one new feature, whose radius
    attribute is the drag distance and whose geometry has the start point
    as its centroid. *)
Theorem create_circle_adds_one (x : ext) (tid l : nat) (T : tool) (L : layer)
  (p : string) (sp ep : point) (w : window) :
  add_ok x = true ->
  (write_ok x = true -> reopen_ok x = true) ->
  lookup Nat.eqb tid (w_tools w) = Some T ->
  t_layer T = l ->
  w_circle_layer w = Some l ->
  lookup Nat.eqb l (w_layers w) = Some L ->
  w_shapefile_path w = Some p ->
  ~ distance sp ep < min_radius ->
  match create_circle x tid (Some sp) ep w with
  | Ok _ w' =>
      exists l' L' f,
        w_circle_layer w' = Some l'
        /\ lookup Nat.eqb l' (w_layers w') = Some L'
        /\ lfeatures L' = lfeatures L ++ [f]
        /\ fradius f = Some (distance sp ep)
        /\ centroid (fgeom f) = sp
  | Raise _ _ => False
  end.
Proof.
  intros Hadd Hreopen HT Hl HC HL HP Hd.
  unfold create_circle.
  destruct (Rlt_dec (distance sp ep) min_radius) as [N|_]; [contradiction|].
  unfold save_to_shapefile, replace_memory_layer_with_shapefile.
  subst l.
  destruct w as [wl wt wn wp wc wm wcl wct wsp wsc wd wj wlog],
    T as [tl trb tsp tdr], L as [lp lf le], x as [xa xw xr].
  cbn in *. subst. exec.
  destruct le; exec; destruct lp as [|q]; exec;
  (destruct xw; [specialize (Hreopen eq_refl); subst xr|]); exec;
  try (destruct (existsb (Nat.eqb tl) wp); exec).
  all: do 3 eexists; split; [reflexivity|]; split; [apply lookup_update_nat|];
    split; [reflexivity|]; split; [reflexivity|];
    apply centroid_circle_geometry;
    [unfold default_segments; lia
    |intro E; apply Hd; rewrite E; unfold min_radius; lra].
Qed.

(** The example of the specification: a circle of radius 5 at (100, 200)
    committed on the initial window. *)
Lemma create_circle_adds_one_witness :
  distance (Pt 100 200) (Pt 105 200) = 5
  /\ match create_circle all_ok 1 (Some (Pt 100 200)) (Pt 105 200) (init_window true) with
     | Ok _ w' =>
         exists l' L' f,
           w_circle_layer w' = Some l'
           /\ lookup Nat.eqb l' (w_layers w') = Some L'
           /\ lfeatures L' = [] ++ [f]
           /\ fradius f = Some (distance (Pt 100 200) (Pt 105 200))
           /\ centroid (fgeom f) = Pt 100 200
     | Raise _ _ => False
     end.
Proof.
  assert (H : distance (Pt 100 200) (Pt 105 200) = 5)
    by (rewrite distance_horizontal by lra; lra).
  split; [exact H|].
  apply (create_circle_adds_one all_ok 1 0 (Tool 0 None None false)
           (Layer Memory [] false) shapefile_name (Pt 100 200) (Pt 105 200)
           (init_window true)); try reflexivity.
  rewrite H. unfold min_radius. lra.
Defined.

(** ** C10: the [id] attribute is never set *)

Lemma Forall_update {K A} (eqb : K -> K -> bool) (P : A -> Prop) k a l :
  Forall (fun kv => P (snd kv)) l -> P a ->
  Forall (fun kv => P (snd kv)) (update eqb k a l).
Proof.
  intros Hl Ha. induction Hl as [|[k' a'] t Hh Ht IH]; cbn; [auto|].
  destruct (eqb k k'); auto.
Qed.

Lemma Forall_remove_key {K A} (eqb : K -> K -> bool) (P : A -> Prop) k l :
  Forall (fun kv => P (snd kv)) l -> Forall (fun kv => P (snd kv)) (remove_key eqb k l).
Proof.
  intros Hl. induction Hl as [|[k' a'] t Hh Ht IH]; cbn; [auto|].
  destruct (eqb k k'); auto.
Qed.

Lemma Forall_lookup {K A} (eqb : K -> K -> bool) (P : A -> Prop) k a l :
  Forall (fun kv => P (snd kv)) l -> lookup eqb k l = Some a -> P a.
Proof.
  intros Hl. induction Hl as [|[k' a'] t Hh Ht IH]; cbn; [discriminate|].
  destruct (eqb k k'); [injection 1 as <-; exact Hh|exact IH].
Qed.

Lemma triple_weaken {A} (m : M A) (Q Q' : A -> Prop) :
  triple m Q -> (forall a, Q a -> Q' a) -> triple m Q'.
Proof.
  intros Hm HQ w Hw. specialize (Hm w Hw).
  destruct (m w); [destruct Hm; auto|exact Hm].
Qed.

Lemma triple_ret {A} (a : A) (Q : A -> Prop) : Q a -> triple (ret a) Q.
Proof. intros HQ w Hw. split; assumption. Qed.

Lemma triple_bind {A B} (m : M A) (k : A -> M B) Q R :
  triple m Q -> (forall a, Q a -> triple (k a) R) -> triple (bind m k) R.
Proof.
  intros Hm Hk w Hw. unfold bind. specialize (Hm w Hw).
  destruct (m w) as [a w'|e w']; [destruct Hm as [Hw' Ha]; exact (Hk a Ha w' Hw')|exact Hm].
Qed.

Lemma triple_gets {A} (f : window -> A) (Q : A -> Prop) :
  (forall w, fids_unset w -> Q (f w)) -> triple (gets f) Q.
Proof. intros H w Hw. split; auto. Qed.

Lemma triple_modify (f : window -> window) :
  (forall w, fids_unset w -> fids_unset (f w)) -> triple (modify f) (fun _ => True).
Proof. intros H w Hw. split; auto. Qed.

Lemma triple_raise {A} (e : exn) (Q : A -> Prop) : triple (raise e) Q.
Proof. intros w Hw. exact Hw. Qed.

Lemma triple_log e : triple (log e) (fun _ => True).
Proof. apply triple_modify. intros w Hw. exact Hw. Qed.

Lemma triple_fresh : triple fresh (fun _ => True).
Proof. intros w Hw. split; [exact Hw|exact I]. Qed.

Lemma triple_get_layer l : triple (get_layer l) layer_ok.
Proof.
  intros w Hw. unfold get_layer.
  destruct (lookup Nat.eqb l (w_layers w)) eqn:E; [|exact Hw].
  split; [exact Hw|]. exact (Forall_lookup _ _ _ _ _ (proj1 Hw) E).
Qed.

Lemma triple_put_layer l L : layer_ok L -> triple (put_layer l L) (fun _ => True).
Proof.
  intros HL. apply triple_modify. intros w [Hl Hd]. split; [|exact Hd].
  apply Forall_update; assumption.
Qed.

Lemma triple_get_tool t : triple (get_tool t) (fun _ => True).
Proof.
  intros w Hw. unfold get_tool. destruct (lookup Nat.eqb t (w_tools w)); auto.
Qed.

Lemma triple_put_tool t T : triple (put_tool t T) (fun _ => True).
Proof. apply triple_modify. intros w Hw. exact Hw. Qed.

Lemma triple_get_shapefile_path : triple get_shapefile_path (fun _ => True).
Proof. intros w Hw. unfold get_shapefile_path. destruct (w_shapefile_path w); auto. Qed.

Lemma triple_get_circle_layer : triple get_circle_layer (fun _ => True).
Proof. intros w Hw. unfold get_circle_layer. destruct (w_circle_layer w); auto. Qed.

Lemma triple_gets_any {A} (f : window -> A) : triple (gets f) (fun _ => True).
Proof. apply triple_gets. auto. Qed.

Lemma triple_gets_disk p :
  triple (gets (fun w => lookup String.eqb p (w_disk w)))
    (fun o => forall fs, o = Some fs -> Forall fid_unset fs).
Proof.
  apply triple_gets. intros w [_ Hd] fs E.
  exact (Forall_lookup _ (Forall fid_unset) _ _ _ Hd E).
Qed.

Create HintDb fids.
#[local] Hint Resolve triple_log triple_fresh triple_get_layer triple_get_tool
  triple_put_tool triple_get_shapefile_path triple_get_circle_layer : fids.
#[local] Hint Resolve triple_gets_disk | 0 : fids.
#[local] Hint Resolve triple_gets_any | 5 : fids.

Ltac window_ok :=
  match goal with
  | Hw : fids_unset ?w |- _ =>
      first [ exact Hw
            | destruct Hw as [?Hl ?Hd]; split;
              first [ assumption
                    | apply Forall_remove_key; assumption
                    | apply (Forall_update _ (Forall fid_unset)); assumption ] ]
  end.

Ltac triple_steps :=
  repeat match goal with
         | |- triple (bind _ _) _ =>
             first [eapply triple_bind; [solve [eauto with fids]|intros ? ?]
                   |apply (triple_bind _ _ (fun _ => True)); [|intros ? ?]]
         | |- triple (modify _) _ => apply triple_modify; intros ?w ?Hw; try window_ok
         | |- triple (ret _) _ => apply triple_ret; auto
         | |- triple (raise _) _ => apply triple_raise
         | |- triple (if ?b then _ else _) _ => destruct b
         | |- triple (match ?x with _ => _ end) _ => destruct x
         | |- triple _ (fun _ => True) => solve [eauto with fids]
         end.

Lemma triple_start_editing l : triple (start_editing l) (fun _ => True).
Proof.
  unfold start_editing. triple_steps.
  apply triple_put_layer. assumption.
Qed.

Lemma triple_add_feature x l f :
  fid f = None -> triple (add_feature x l f) (fun _ => True).
Proof.
  intros Hf. unfold add_feature. triple_steps.
  apply triple_put_layer. apply Forall_app. split; [assumption|constructor; [exact Hf|constructor]].
Qed.

Lemma triple_commit_changes l : triple (commit_changes l) (fun _ => True).
Proof.
  unfold commit_changes. triple_steps.
  apply triple_put_layer. assumption.
Qed.

#[local] Hint Resolve triple_start_editing triple_commit_changes : fids.

Lemma triple_trigger_repaint l : triple (trigger_repaint l) (fun _ => True).
Proof. unfold trigger_repaint. triple_steps. Qed.

Lemma triple_remove_map_layer l : triple (remove_map_layer l) (fun _ => True).
Proof.
  unfold remove_map_layer. triple_steps.
Qed.

Lemma triple_add_map_layer l : triple (add_map_layer l) (fun _ => True).
Proof. unfold add_map_layer. triple_steps. Qed.

Lemma triple_canvas_set_map_tool t : triple (canvas_set_map_tool t) (fun _ => True).
Proof. unfold canvas_set_map_tool. triple_steps. Qed.

Lemma triple_canvas_set_layers ls : triple (canvas_set_layers ls) (fun _ => True).
Proof. unfold canvas_set_layers. triple_steps. Qed.

#[local] Hint Resolve triple_trigger_repaint triple_remove_map_layer triple_add_map_layer
  triple_canvas_set_map_tool triple_canvas_set_layers : fids.

Lemma triple_replace x : triple (replace_memory_layer_with_shapefile x) (fun _ => True).
Proof.
  unfold replace_memory_layer_with_shapefile. triple_steps.
  apply triple_put_layer. unfold layer_ok. cbn. auto.
Qed.

#[local] Hint Resolve triple_replace : fids.

Lemma triple_save x : triple (save_to_shapefile x) (fun _ => True).
Proof.
  unfold save_to_shapefile. triple_steps.
Qed.

#[local] Hint Resolve triple_save : fids.

Lemma triple_create_circle x tid sp ep : triple (create_circle x tid sp ep) (fun _ => True).
Proof.
  unfold create_circle. triple_steps.
  apply triple_add_feature. reflexivity.
Qed.

#[local] Hint Resolve triple_create_circle : fids.

Lemma triple_canvasPressEvent tid b pos : triple (canvasPressEvent tid b pos) (fun _ => True).
Proof. unfold canvasPressEvent. triple_steps. Qed.

Lemma triple_update_rubber_band tid pos : triple (update_rubber_band tid pos) (fun _ => True).
Proof. unfold update_rubber_band. triple_steps. Qed.

#[local] Hint Resolve triple_update_rubber_band : fids.

Lemma triple_canvasMoveEvent tid pos : triple (canvasMoveEvent tid pos) (fun _ => True).
Proof. unfold canvasMoveEvent. triple_steps. Qed.

Lemma triple_canvasReleaseEvent x tid b pos :
  triple (canvasReleaseEvent x tid b pos) (fun _ => True).
Proof. unfold canvasReleaseEvent. triple_steps. Qed.

Lemma triple_export_card : triple export_card (fun _ => True).
Proof. unfold export_card. triple_steps. Qed.

#[local] Hint Resolve triple_canvasPressEvent triple_canvasMoveEvent
  triple_canvasReleaseEvent triple_export_card : fids.

Lemma triple_handle i : triple (handle i) (fun _ => True).
Proof. unfold handle. triple_steps. Qed.

Lemma step_fids_unset w i : fids_unset w -> fids_unset (step w i).
Proof.
  intros Hw. unfold step, final_state. pose proof (triple_handle i w Hw) as H.
  destruct (handle i w); [exact (proj1 H)|exact H].
Qed.

Lemma run_inputs_fids_unset w is : fids_unset w -> fids_unset (run_inputs w is).
Proof.
  revert w. induction is as [|i t IH]; intros w Hw; [exact Hw|].
  apply IH. apply step_fids_unset. exact Hw.
Qed.

(** C10: from the initial window, after any sequence of user inputs (each
    handler returning or raising), every feature of every live layer and of
    every file written to disk has a NULL [id] attribute: [create_circle]
    sets only [radius] and no operation of the program sets [id]. *)
Theorem fid_never_set (valid : bool) (is : list input) :
  let w := run_inputs (init_window valid) is in
  (forall l L f, lookup Nat.eqb l (w_layers w) = Some L -> In f (lfeatures L) -> fid f = None)
  /\ (forall p fs f, lookup String.eqb p (w_disk w) = Some fs -> In f fs -> fid f = None).
Proof.
  assert (H : fids_unset (run_inputs (init_window valid) is)).
  { apply run_inputs_fids_unset. split; cbn; repeat constructor. }
  destruct H as [Hl Hd]. split.
  - intros l L f E Hf. pose proof (Forall_lookup _ layer_ok _ _ _ Hl E) as HL.
    exact (proj1 (Forall_forall _ _) HL f Hf).
  - intros p fs f E Hf. pose proof (Forall_lookup _ (Forall fid_unset) _ _ _ Hd E) as Hfs.
    exact (proj1 (Forall_forall _ _) Hfs f Hf).
Qed.

(** ** C4: a failed reopen of the shapefile *)

Lemma lookup_remove_key_nat {A} (l : nat) (ls : list (nat * A)) :
  lookup Nat.eqb l (remove_key Nat.eqb l ls) = None.
Proof.
  induction ls as [|[k a] t IH]; cbn; [reflexivity|].
  destruct (Nat.eqb l k) eqn:E; [exact IH|cbn; rewrite E; exact IH].
Qed.

Lemma not_In_filter_nat (l : nat) (ls : list nat) :
  ~ In l (filter (fun k => negb (Nat.eqb l k)) ls).
Proof.
  intros H. apply filter_In in H. destruct H as [_ H].
  rewrite Nat.eqb_refl in H. discriminate.
Qed.

Lemma existsb_In_nat (l : nat) (ls : list nat) :
  In l ls -> existsb (Nat.eqb l) ls = true.
Proof.
  intros H. apply existsb_exists. exists l. split; [exact H|apply Nat.eqb_refl].
Qed.

(** C4: when the shapefile is written but does not reopen as a valid layer,
    [save_to_shapefile] returns normally, yet [removeMapLayer] has already
    run: the circle layer is no longer registered in the project, its object
    is deleted, and [self.circle_layer] still names it, so using it raises
    [RuntimeError]. *)
Theorem save_reopen_failure_unregisters (x : ext) (l : nat) (L : layer) (p : string)
  (w : window) :
  write_ok x = true ->
  reopen_ok x = false ->
  w_circle_layer w = Some l ->
  lookup Nat.eqb l (w_layers w) = Some L ->
  w_shapefile_path w = Some p ->
  In l (w_project w) ->
  match save_to_shapefile x w with
  | Ok _ w' =>
      w_circle_layer w' = Some l
      /\ ~ In l (w_project w')
      /\ lookup Nat.eqb l (w_layers w') = None
      /\ get_layer l w' = Raise RuntimeError w'
  | Raise _ _ => False
  end.
Proof.
  intros Hw Hr HC HL HP Hin.
  unfold save_to_shapefile, replace_memory_layer_with_shapefile.
  destruct w as [wl wt wn wp wc wm wcl wct wsp wsc wd wj wlog], x as [xa xw xr].
  cbn in *. subst. exec.
  rewrite (existsb_In_nat l wp Hin). exec.
  rewrite lookup_remove_key_nat.
  split; [reflexivity|]. split; [apply not_In_filter_nat|]. split; reflexivity.
Qed.

Lemma save_reopen_failure_unregisters_witness :
  match save_to_shapefile (Ext true true false) (init_window true) with
  | Ok _ w' =>
      w_circle_layer w' = Some 0%nat
      /\ ~ In 0%nat (w_project w')
      /\ lookup Nat.eqb 0%nat (w_layers w') = None
      /\ get_layer 0%nat w' = Raise RuntimeError w'
  | Raise _ _ => False
  end.
Proof.
  apply (save_reopen_failure_unregisters (Ext true true false) 0%nat (Layer Memory [] false)
           shapefile_name (init_window true)); try reflexivity.
  left. reflexivity.
Defined.

(** ** C7: side effects of a commit *)

(** Evaluation of a concrete run; the drags used are 10 long. *)
Ltac run_concrete :=
  repeat (cbv -[distance create_circle_geometry centroid min_radius IZR];
          match goal with
          | |- context [Rlt_dec ?a ?b] =>
              let Hc := fresh "Hc" in
              destruct (Rlt_dec a b) as [Hc|Hc];
              [exfalso; rewrite distance_horizontal in Hc by lra;
               unfold min_radius in Hc; lra|]
          end).

(** C7: on the initial window, a drag of length 10 runs, in order,
    [startEditing], [addFeature], [commitChanges], the message,
    [triggerRepaint], [refresh] and the shapefile write. When the reopen then
    fails, the memory layer holding the circle is deleted (the circle
    survives only in the file); when the write itself fails, the memory
    layer keeps the circle. *)
Lemma create_circle_reopen_failure_deletes_store :
  match create_circle (Ext true true false) 1 (Some (Pt 0 0)) (Pt 10 0) (init_window true) with
  | Ok _ w' =>
      w_log w' = [EvStartEditing 0%nat; EvAddFeature 0%nat; EvCommitChanges 0%nat; EvPrint;
                  EvTriggerRepaint 0%nat; EvCanvasRefresh; EvWriteVectorFile shapefile_name;
                  EvPrint; EvRemoveMapLayer 0%nat; EvPrint]
      /\ w_circle_layer w' = Some 0%nat
      /\ lookup Nat.eqb 0%nat (w_layers w') = None
      /\ option_map (@List.length _) (lookup String.eqb shapefile_name (w_disk w')) = Some 1%nat
  | Raise _ _ => False
  end
  /\ match create_circle (Ext true false true) 1 (Some (Pt 0 0)) (Pt 10 0) (init_window true) with
     | Ok _ w' =>
         w_circle_layer w' = Some 0%nat
         /\ option_map (fun L => List.length (lfeatures L)) (lookup Nat.eqb 0%nat (w_layers w'))
            = Some 1%nat
     | Raise _ _ => False
     end.
Proof.
  unfold create_circle, init_window.
  run_concrete.
  repeat split; reflexivity.
Qed.


(** ** C8: exporting after a failed reopen *)

(** C8: after a drag whose shapefile does not reopen, [self.circle_layer]
    is not [None] but names a deleted layer: [export_card] raises
    [RuntimeError] in [getFeatures()] instead of warning, and submits no
    job. *)
Lemma export_card_dangling_layer_raises :
  let w := run_inputs (init_window true) after_failed_reopen in
  w_circle_layer w = Some 0%nat
  /\ match export_card w with
     | Raise RuntimeError w' => w_export_job w' = None
     | _ => False
     end.
Proof.
  cbv zeta. unfold run_inputs, after_failed_reopen, init_window.
  run_concrete. split; reflexivity.
Qed.

(** ** C9: releasing the button after a failed reopen *)

(** C9: after a drag whose shapefile does not reopen, the map tool is still
    the first [CircleDrawTool]; a new press puts it in the drawing state, and
    the next left release raises [RuntimeError] in [create_circle]
    ([self.layer.fields()] on the deleted layer), leaving the tool drawing,
    with its start point and its rubber band. *)
Lemma release_after_failed_reopen_raises :
  let w := run_inputs (init_window true) (after_failed_reopen ++ [InPress LeftButton (Pt 0 0)]) in
  match lookup Nat.eqb (w_map_tool w) (w_tools w) with
  | Some T => t_drawing T = true
  | None => False
  end
  /\ match handle (InRelease all_ok LeftButton (Pt 10 0)) w with
     | Raise RuntimeError w' =>
         match lookup Nat.eqb (w_map_tool w') (w_tools w') with
         | Some T => t_drawing T = true /\ t_start_point T <> None /\ t_rubber_band T <> None
         | None => False
         end
     | _ => False
     end.
Proof.
  cbv zeta. unfold run_inputs, after_failed_reopen, init_window.
  run_concrete. repeat split; try reflexivity; discriminate.
Qed.

(** ** C6: what the export job reads *)





(** ** Extras: the map tool *)

Lemma update_lookup_same {A} (k : nat) (a : A) l :
  lookup Nat.eqb k l = Some a -> update Nat.eqb k a l = l.
Proof.
  induction l as [|[k' a'] t IH]; cbn; [discriminate|].
  destruct (Nat.eqb k k') eqn:E.
  - injection 1 as ->. apply Nat.eqb_eq in E. subst. reflexivity.
  - intros H. rewrite (IH H). reflexivity.
Qed.

Lemma update_update_nat {A} (k : nat) (a b : A) l :
  update Nat.eqb k a (update Nat.eqb k b l) = update Nat.eqb k a l.
Proof.
  induction l as [|[k' a'] t IH]; cbn.
  - rewrite Nat.eqb_refl. reflexivity.
  - destruct (Nat.eqb k k') eqn:E; cbn; rewrite ?Nat.eqb_refl, ?E, ?IH; reflexivity.
Qed.

Lemma remove_key_app_fresh {A} (k : nat) (v : A) l :
  ~ In k (map fst l) -> remove_key Nat.eqb k (l ++ [(k, v)]) = l.
Proof.
  induction l as [|[k' a'] t IH]; cbn; intros H.
  - rewrite Nat.eqb_refl. reflexivity.
  - destruct (Nat.eqb k k') eqn:E.
    + apply Nat.eqb_eq in E. subst. exfalso. apply H. left. reflexivity.
    + rewrite IH by tauto. reflexivity.
Qed.

(** A click without a drag on an idle tool (a left press, then a left
    release less than [0.001] away) leaves the window exactly as it was,
    apart from the handle used for the rubber band that was created and
    removed again. *)
Theorem click_without_drag (x : ext) (tid l : nat) (p q : point) (w : window) :
  lookup Nat.eqb tid (w_tools w) = Some (Tool l None None false) ->
  ~ In (w_next w) (map fst (w_scene w)) ->
  distance p q < min_radius ->
  (canvasPressEvent tid LeftButton p;; canvasReleaseEvent x tid LeftButton q) w
  = Ok tt (set_next (S (w_next w)) w).
Proof.
  intros HT Hfresh Hd.
  destruct w as [wl wt wn wp wc wm wcl wct wsp wsc wd wj wlog].
  cbn in *. unfold canvasPressEvent, canvasReleaseEvent, create_circle. cbn [is_left andb]. exec.
  destruct (Rlt_dec (distance p q) min_radius) as [_|N]; [|contradiction].
  exec.
  rewrite !update_update_nat, (update_lookup_same _ _ _ HT), (remove_key_app_fresh _ _ _ Hfresh).
  reflexivity.
Qed.

Lemma click_without_drag_witness :
  (canvasPressEvent 1 LeftButton (Pt 0 0);; canvasReleaseEvent all_ok 1 LeftButton (Pt 0 0))
    (init_window true)
  = Ok tt (set_next 3%nat (init_window true)).
Proof.
  apply (click_without_drag all_ok 1 0 (Pt 0 0) (Pt 0 0) (init_window true)).
  - reflexivity.
  - intros [].
  - rewrite distance_horizontal by lra. unfold min_radius. lra.
Defined.

Lemma release_after_create (x : ext) (tid : nat) (T T1 : tool) (pos : point) (w w1 : window) :
  lookup Nat.eqb tid (w_tools w) = Some T ->
  t_drawing T = true ->
  create_circle x tid (t_start_point T) pos w = Ok tt w1 ->
  lookup Nat.eqb tid (w_tools w1) = Some T1 ->
  canvasReleaseEvent x tid LeftButton pos w
  = Ok tt (set_tools (update Nat.eqb tid (Tool (t_layer T1) None None false) (w_tools w1))
             match t_rubber_band T1 with
             | Some rb => set_scene (remove_key Nat.eqb rb (w_scene w1)) w1
             | None => w1
             end).
Proof.
  intros HT HD HC HT1. unfold canvasReleaseEvent.
  cbv [bind get_tool]. rewrite HT, HD. cbn [is_left andb]. rewrite HC, HT1.
  destruct T1 as [tl [rb|] tsp tdr]; cbn.
  - rewrite lookup_update_nat. unfold put_tool, modify, set_tools, set_scene. cbn.
    rewrite update_update_nat. reflexivity.
  - rewrite HT1. reflexivity.
Qed.

(** A left release while drawing, less than [0.001] from the start point
    (a zero-length drag included), returns normally and discards the drag:
    the resulting window is the one before the release with the tool made
    idle (no rubber band, no start point, not drawing) and its rubber band
    removed from the canvas scene; nothing else changes. *)
Theorem release_short_drag (x : ext) (tid : nat) (T : tool) (sp pos : point) (w : window) :
  lookup Nat.eqb tid (w_tools w) = Some T ->
  t_drawing T = true ->
  t_start_point T = Some sp ->
  distance sp pos < min_radius ->
  canvasReleaseEvent x tid LeftButton pos w
  = Ok tt (set_tools (update Nat.eqb tid (Tool (t_layer T) None None false) (w_tools w))
             match t_rubber_band T with
             | Some rb => set_scene (remove_key Nat.eqb rb (w_scene w)) w
             | None => w
             end).
Proof.
  intros HT HD HS Hd.
  assert (HC : create_circle x tid (t_start_point T) pos w = Ok tt w).
  { rewrite HS. unfold create_circle.
    destruct (Rlt_dec (distance sp pos) min_radius); [reflexivity|contradiction]. }
  exact (release_after_create x tid T T pos w w HT HD HC HT).
Qed.

Lemma release_short_drag_witness :
  canvasReleaseEvent all_ok 1 LeftButton (Pt 0 0) drawing_window
  = Ok tt (set_tools (update Nat.eqb 1%nat (Tool 0%nat None None false) (w_tools drawing_window))
             (set_scene (remove_key Nat.eqb 2%nat (w_scene drawing_window)) drawing_window)).
Proof.
  apply (release_short_drag all_ok 1 (Tool 0 (Some 2%nat) (Some (Pt 0 0)) true)
           (Pt 0 0) (Pt 0 0) drawing_window); try reflexivity.
  rewrite distance_horizontal by lra. unfold min_radius. lra.
Defined.

(** ** Extras: persistence and export *)

(** When the shapefile is written and reopens as a valid layer,
    [save_to_shapefile] swaps the layers: the circle layer becomes a new
    [ogr] layer on the file holding the same features as the memory layer
    had, the memory layer is unregistered and deleted, the new layer is
    registered last in the project and is the only canvas layer, and a new
    idle [CircleDrawTool] on it is the map tool. *)
Theorem save_swaps_to_shapefile (x : ext) (l : nat) (L : layer) (p : string) (w : window) :
  write_ok x = true ->
  reopen_ok x = true ->
  w_circle_layer w = Some l ->
  lookup Nat.eqb l (w_layers w) = Some L ->
  w_shapefile_path w = Some p ->
  In l (w_project w) ->
  (l < w_next w)%nat ->
  match save_to_shapefile x w with
  | Ok _ w' =>
      let nl := w_next w in
      w_circle_layer w' = Some nl
      /\ lookup Nat.eqb nl (w_layers w') = Some (Layer (Ogr p) (lfeatures L) false)
      /\ lookup Nat.eqb l (w_layers w') = None
      /\ w_project w' = filter (fun k => negb (Nat.eqb l k)) (w_project w) ++ [nl]
      /\ w_canvas_layers w' = [nl]
      /\ w_map_tool w' = S nl
      /\ w_circle_tool w' = S nl
      /\ lookup Nat.eqb (S nl) (w_tools w') = Some (Tool nl None None false)
      /\ lookup String.eqb p (w_disk w') = Some (lfeatures L)
  | Raise _ _ => False
  end.
Proof.
  intros Hw Hr HC HL HP Hin Hlt.
  unfold save_to_shapefile, replace_memory_layer_with_shapefile.
  destruct w as [wl wt wn wp wc wm wcl wct wsp wsc wd wj wlog], x as [xa xw xr].
  cbn in *. subst. exec.
  rewrite (existsb_In_nat l wp Hin). exec.
  cbn zeta. repeat split;
    first [ reflexivity | apply lookup_update_nat | apply lookup_update_str
          | rewrite lookup_update_nat_other by lia; apply lookup_remove_key_nat ].
Qed.

Lemma save_swaps_to_shapefile_witness :
  match save_to_shapefile all_ok (init_window true) with
  | Ok _ w' =>
      let nl := w_next (init_window true) in
      w_circle_layer w' = Some nl
      /\ lookup Nat.eqb nl (w_layers w') = Some (Layer (Ogr shapefile_name) [] false)
      /\ lookup Nat.eqb 0%nat (w_layers w') = None
      /\ w_project w' = filter (fun k => negb (Nat.eqb 0%nat k)) (w_project (init_window true)) ++ [nl]
      /\ w_canvas_layers w' = [nl]
      /\ w_map_tool w' = S nl
      /\ w_circle_tool w' = S nl
      /\ lookup Nat.eqb (S nl) (w_tools w') = Some (Tool nl None None false)
      /\ lookup String.eqb shapefile_name (w_disk w') = Some []
  | Raise _ _ => False
  end.
Proof.
  apply (save_swaps_to_shapefile all_ok 0 (Layer Memory [] false) shapefile_name
           (init_window true)); try reflexivity.
  - left. reflexivity.
  - cbn. lia.
Defined.

Lemma last_opt_snoc {A} (fs : list A) (f : A) : last_opt (fs ++ [f]) = Some f.
Proof.
  induction fs as [|a t IH]; [reflexivity|].
  cbn. destruct (t ++ [f]) eqn:E; [destruct t; discriminate|exact IH].
Qed.

Lemma export_card_last_eq (l : nat) (L : layer) (fs : list feature) (f : feature) (w : window) :
  w_circle_layer w = Some l ->
  lookup Nat.eqb l (w_layers w) = Some L ->
  lfeatures L = fs ++ [f] ->
  export_card w
  = Ok tt (add_log (EvStartExport (Job l (fgeom f) (centroid (fgeom f)) (fradius f) card_export_name))
            (set_export_job (Some (Job l (fgeom f) (centroid (fgeom f)) (fradius f) card_export_name)) w)).
Proof.
  intros HC HL HF. unfold export_card.
  destruct w as [wl wt wn wp wc wm wcl wct wsp wsc wd wj wlog], L as [lp lf le].
  cbn in *. subst. exec. rewrite last_opt_snoc. reflexivity.
Qed.

Lemma create_circle_commit_state (x : ext) (tid l : nat) (T : tool) (L : layer)
  (p : string) (sp ep : point) (w : window) :
  add_ok x = true ->
  (write_ok x = true -> reopen_ok x = true) ->
  lookup Nat.eqb tid (w_tools w) = Some T ->
  t_layer T = l ->
  w_circle_layer w = Some l ->
  lookup Nat.eqb l (w_layers w) = Some L ->
  w_shapefile_path w = Some p ->
  ~ distance sp ep < min_radius ->
  match create_circle x tid (Some sp) ep w with
  | Ok _ w' =>
      exists l' L' f,
        w_circle_layer w' = Some l'
        /\ lookup Nat.eqb l' (w_layers w') = Some L'
        /\ lfeatures L' = lfeatures L ++ [f]
        /\ fradius f = Some (distance sp ep)
        /\ centroid (fgeom f) = sp
  | Raise _ _ => False
  end.
Proof.
  intros Hadd Hreopen HT Hl HC HL HP Hd.
  unfold create_circle.
  destruct (Rlt_dec (distance sp ep) min_radius) as [N|_]; [contradiction|].
  unfold save_to_shapefile, replace_memory_layer_with_shapefile.
  subst l.
  destruct w as [wl wt wn wp wc wm wcl wct wsp wsc wd wj wlog],
    T as [tl trb tsp tdr], L as [lp lf le], x as [xa xw xr].
  cbn in *. subst. exec.
  destruct le; exec; destruct lp as [|q]; exec;
  (destruct xw; [specialize (Hreopen eq_refl); subst xr|]); exec;
  try (destruct (existsb (Nat.eqb tl) wp); exec).
  all: do 3 eexists; split; [reflexivity|]; split; [apply lookup_update_nat|];
    split; [reflexivity|]; split; [reflexivity|];
    apply centroid_circle_geometry;
    [unfold default_segments; lia
    |intro E; apply Hd; rewrite E; unfold min_radius; lra].
Qed.

(** Committing a circle (as in C3) and then exporting submits a job on the
    current circle layer whose center is the start point of the drag and
    whose radius is the drag distance. *)
Theorem commit_then_export (x : ext) (tid l : nat) (T : tool) (L : layer)
  (p : string) (sp ep : point) (w : window) :
  add_ok x = true ->
  (write_ok x = true -> reopen_ok x = true) ->
  lookup Nat.eqb tid (w_tools w) = Some T ->
  t_layer T = l ->
  w_circle_layer w = Some l ->
  lookup Nat.eqb l (w_layers w) = Some L ->
  w_shapefile_path w = Some p ->
  ~ distance sp ep < min_radius ->
  match create_circle x tid (Some sp) ep w with
  | Ok _ w1 =>
      match export_card w1 with
      | Ok _ w2 =>
          exists j, w_export_job w2 = Some j
            /\ w_circle_layer w1 = Some (j_layer j)
            /\ j_center j = sp
            /\ j_radius j = Some (distance sp ep)
            /\ j_output_path j = card_export_name
      | Raise _ _ => False
      end
  | Raise _ _ => False
  end.
Proof.
  intros Hadd Hreopen HT Hl HC HL HP Hd.
  pose proof (create_circle_commit_state x tid l T L p sp ep w Hadd Hreopen HT Hl HC HL HP Hd)
    as H.
  destruct (create_circle x tid (Some sp) ep w) as [u w1|]; [|contradiction].
  destruct H as (l' & L' & f & HC' & HL' & HF & HR & Hc).
  rewrite (export_card_last_eq l' L' (lfeatures L) f w1 HC' HL' HF).
  eexists. split; [reflexivity|]. cbn. rewrite HR, Hc. auto.
Qed.

Lemma commit_then_export_witness :
  match create_circle all_ok 1 (Some (Pt 100 200)) (Pt 105 200) (init_window true) with
  | Ok _ w1 =>
      match export_card w1 with
      | Ok _ w2 =>
          exists j, w_export_job w2 = Some j
            /\ w_circle_layer w1 = Some (j_layer j)
            /\ j_center j = Pt 100 200
            /\ j_radius j = Some (distance (Pt 100 200) (Pt 105 200))
            /\ j_output_path j = card_export_name
      | Raise _ _ => False
      end
  | Raise _ _ => False
  end.
Proof.
  apply (commit_then_export all_ok 1 0 (Tool 0 None None false)
           (Layer Memory [] false) shapefile_name (Pt 100 200) (Pt 105 200)
           (init_window true)); try reflexivity.
  rewrite distance_horizontal by lra. unfold min_radius. lra.
Defined.

(** A job whose feature has a NULL [radius] attribute never produces a
    card: formatting the label raises, so at most 10, 30 and 60 are
    reported before [finished]. *)
Theorem run_without_radius (j : job) (raises : nat -> bool)
  (heap : nat -> list (nat * layer)) :
  j_radius j = None ->
  snd (run j raises heap) = None
  /\ is_prefix (progress_values (fst (run j raises heap))) [10; 30; 60]%nat = true.
Proof.
  intros HR. unfold run, run_body, wbind, emit, internal, require, wret. rewrite HR.
  destruct (raises 1%nat); [cbn; auto|].
  destruct (lookup Nat.eqb (j_layer j) (heap 2%nat)); [|cbn; auto].
  destruct (raises 2%nat); cbn; auto.
Qed.

Lemma run_without_radius_witness :
  snd (run job_without_radius no_raise (fun _ => empty_store)) = None
  /\ is_prefix (progress_values (fst (run job_without_radius no_raise (fun _ => empty_store))))
       [10; 30; 60]%nat = true.
Proof. apply run_without_radius. reflexivity. Defined.


(** ** Extras: the drawing state *)

Lemma ttriple_ret {A} (a : A) (Q : A -> Prop) : Q a -> ttriple (ret a) Q.
Proof. intros HQ w Hw. split; assumption. Qed.

Lemma ttriple_bind {A B} (m : M A) (k : A -> M B) Q R :
  ttriple m Q -> (forall a, Q a -> ttriple (k a) R) -> ttriple (bind m k) R.
Proof.
  intros Hm Hk w Hw. unfold bind. specialize (Hm w Hw).
  destruct (m w) as [a w'|e w']; [destruct Hm as [Hw' Ha]; exact (Hk a Ha w' Hw')|exact Hm].
Qed.

Lemma ttriple_modify (f : window -> window) :
  (forall w, tools_ok w -> tools_ok (f w)) -> ttriple (modify f) (fun _ => True).
Proof. intros H w Hw. split; auto. Qed.

Lemma ttriple_gets {A} (f : window -> A) : ttriple (gets f) (fun _ => True).
Proof. intros w Hw. split; auto. Qed.

Lemma ttriple_raise {A} (e : exn) (Q : A -> Prop) : ttriple (raise e) Q.
Proof. intros w Hw. exact Hw. Qed.

Lemma ttriple_fresh : ttriple fresh (fun _ => True).
Proof. intros w Hw. split; [exact Hw|exact I]. Qed.

Lemma ttriple_get_layer l : ttriple (get_layer l) (fun _ => True).
Proof. intros w Hw. unfold get_layer. destruct (lookup Nat.eqb l (w_layers w)); auto. Qed.

Lemma ttriple_get_tool t : ttriple (get_tool t) tool_ok.
Proof.
  intros w Hw. unfold get_tool.
  destruct (lookup Nat.eqb t (w_tools w)) eqn:E; [|exact Hw].
  split; [exact Hw|]. exact (Forall_lookup _ tool_ok _ _ _ Hw E).
Qed.

Lemma ttriple_put_tool t T : tool_ok T -> ttriple (put_tool t T) (fun _ => True).
Proof.
  intros HT. apply ttriple_modify. intros w Hw. apply Forall_update; assumption.
Qed.

Lemma ttriple_get_shapefile_path : ttriple get_shapefile_path (fun _ => True).
Proof. intros w Hw. unfold get_shapefile_path. destruct (w_shapefile_path w); auto. Qed.

Lemma ttriple_get_circle_layer : ttriple get_circle_layer (fun _ => True).
Proof. intros w Hw. unfold get_circle_layer. destruct (w_circle_layer w); auto. Qed.

Create HintDb tools.
#[local] Hint Resolve ttriple_fresh ttriple_get_layer ttriple_get_tool
  ttriple_get_shapefile_path ttriple_get_circle_layer ttriple_gets : tools.

Ltac ttriple_steps :=
  repeat match goal with
         | |- ttriple (bind _ _) _ =>
             first [eapply ttriple_bind; [solve [eauto with tools]|intros ? ?]
                   |apply (ttriple_bind _ _ (fun _ => True)); [|intros ? ?]]
         | |- ttriple (modify _) _ => apply ttriple_modify; intros ?w ?Hw; try exact Hw
         | |- ttriple (ret _) _ => apply ttriple_ret; auto
         | |- ttriple (raise _) _ => apply ttriple_raise
         | |- ttriple (if ?b then _ else _) _ => destruct b
         | |- ttriple (match ?x with _ => _ end) _ => destruct x
         | |- ttriple (put_tool _ _) _ => apply ttriple_put_tool
         | |- ttriple _ (fun _ => True) => solve [eauto with tools]
         end.

Ltac tool_ok_lit :=
  unfold tool_ok; cbn; split; intros; first [discriminate | congruence | tauto].

Lemma ttriple_log e : ttriple (log e) (fun _ => True).
Proof. unfold log. ttriple_steps. Qed.

#[local] Hint Resolve ttriple_log : tools.

Lemma ttriple_create_circle x tid sp ep : ttriple (create_circle x tid sp ep) (fun _ => True).
Proof.
  unfold create_circle, start_editing, add_feature, commit_changes, trigger_repaint,
    save_to_shapefile, replace_memory_layer_with_shapefile, remove_map_layer,
    add_map_layer, canvas_set_map_tool, canvas_set_layers, put_layer.
  ttriple_steps. tool_ok_lit.
Qed.

#[local] Hint Resolve ttriple_create_circle : tools.

Lemma ttriple_handle i : ttriple (handle i) (fun _ => True).
Proof.
  unfold handle, canvasPressEvent, canvasMoveEvent, update_rubber_band, canvasReleaseEvent,
    export_card.
  ttriple_steps.
  all: try tool_ok_lit.
  all: unfold tool_ok in *; cbn; tauto.
Qed.

(** From the initial window, after any sequence of user inputs (each
    handler returning or raising), every [CircleDrawTool] is drawing exactly
    when it has a start point; in particular [canvasReleaseEvent] never
    passes a [None] start point to [create_circle]. *)
Theorem drawing_iff_start_point (valid : bool) (is : list input) :
  Forall (fun kT => t_drawing (snd kT) = true <-> t_start_point (snd kT) <> None)
    (w_tools (run_inputs (init_window valid) is)).
Proof.
  change (tools_ok (run_inputs (init_window valid) is)).
  assert (H : tools_ok (init_window valid)).
  { constructor; [|constructor]. unfold tool_ok. cbn.
    split; [discriminate|intros H; exfalso; apply H; reflexivity]. }
  revert H. generalize (init_window valid) as w.
  induction is as [|i t IH]; intros w Hw; [exact Hw|].
  apply IH. unfold step, final_state. pose proof (ttriple_handle i w Hw) as Hh.
  destruct (handle i w); [exact (proj1 Hh)|exact Hh].
Qed.


(** ** Extras: saving the project *)






